(** * casino_simulator: a Martingale betting simulator, embedded in Rocq.

    The development follows [src/casino_simulator.py].

    - Money, bet sizes, the rate and the counts are Python integers (as in
      [main]): they are modelled by [Z], which is exact for them.
    - Colours are Python strings; they are compared with [!=], here
      [String.eqb].
    - [np.random.choice(["black", "red"])] reads the global random state.  The
      model makes that state explicit: a finite tape of the colours still to be
      drawn, threaded through every call.  A run that asks for a colour when the
      tape is empty is [Starved]: the tape was too short to decide what the
      program does (the program itself would go on drawing).
    - Python exceptions are results of their own ([Raise]).
    - [self.current_money] is the one attribute the methods assign, so methods
      return the updated object beside their value. *)

From Stdlib Require Import ZArith QArith Qround List String Bool Lia.
From Stdlib Require Import Sorting.Sorted Sorting.Permutation.
From Stdlib Require Import DecimalString.
Import ListNotations.

Open Scope string_scope.
Open Scope list_scope.
Open Scope Z_scope.

(** ** Python effects: exceptions and the global random state *)

Module Py.

Inductive exn : Set :=
| UnboundLocalError
| ZeroDivisionError
| ValueError.

(** The state of [np.random]: the colours it will produce, in order. *)
Definition rng := list string.

Inductive res (A : Type) : Type :=
| Ok (a : A) (g : rng)
| Raise (e : exn)
| Starved.
Arguments Ok {A} a g.
Arguments Raise {A} e.
Arguments Starved {A}.

Definition M (A : Type) : Type := rng -> res A.

Definition ret {A} (a : A) : M A := fun g => Ok a g.

Definition bind {A B} (m : M A) (k : A -> M B) : M B :=
  fun g =>
    match m g with
    | Ok a g' => k a g'
    | Raise e => Raise e
    | Starved => Starved
    end.

Definition raise {A} (e : exn) : M A := fun _ => Raise e.

(** [np.random.choice(["black", "red"])]. *)
Definition random_choice : M string :=
  fun g =>
    match g with
    | [] => Starved
    | c :: g' => Ok c g'
    end.

(** [a / b] on integers: the quotient, or [ZeroDivisionError].  Python
    rounds the quotient to a float; the model keeps the exact rational, in
    lowest terms. *)
Definition truediv (a b : Z) : M Q :=
  if b =? 0 then raise ZeroDivisionError
  else ret (Qred (inject_Z a / inject_Z b)).

(** [str(n)] for an integer, as an f-string prints it. *)
Definition str (n : Z) : string := NilZero.string_of_int (Z.to_int n).

End Py.

Import Py.

Declare Scope py_scope.
Delimit Scope py_scope with py.
Notation "x <- m ;; k" := (bind m (fun x => k))
  (at level 61, m at next level, right associativity) : py_scope.
Notation "' pat <- m ;; k" := (bind m (fun x => match x with pat => k end))
  (at level 61, pat pattern, m at next level, right associativity) : py_scope.

(** ** class CasinoSimulator *)

Module CasinoSimulator.

Record t : Set := mk {
  chosen_color : string;
  current_money : Z;
  _n_games : Z;
  _start_money : Z;
  _rate : Z;
  _first_game_money : Z
}.

(** [__init__]: six plain attribute assignments. *)
Definition __init__ (n_games : Z) (chosen_color : string)
    (start_money rate first_game_money : Z) : exn + t :=
  inr {| chosen_color := chosen_color;
         current_money := start_money;
         _n_games := n_games;
         _start_money := start_money;
         _rate := rate;
         _first_game_money := first_game_money |}.

(** The read-only properties [n_games], [start_money], [rate] and
    [first_game_money]. *)
Definition n_games (self : t) : Z := _n_games self.

Definition start_money (self : t) : Z := _start_money self.

Definition rate (self : t) : Z := _rate self.

Definition first_game_money (self : t) : Z := _first_game_money self.

(** The assignment [self.current_money = v]. *)
Definition set_current_money (self : t) (v : Z) : t :=
  {| chosen_color := chosen_color self;
     current_money := v;
     _n_games := _n_games self;
     _start_money := _start_money self;
     _rate := _rate self;
     _first_game_money := _first_game_money self |}.

(** Python's [a != b] on colours. *)
Definition neq (a b : string) : bool := negb (String.eqb a b).

(** [one_bet]: returns [(current_money, one_game_money)]. *)
Definition one_bet (self : t) (color : string) (won_money one_game_money : Z)
    : Z * Z :=
  let '(won_money, one_game_money) :=
    if neq color (chosen_color self)
    then (won_money - one_game_money, one_game_money * _rate self)
    else (won_money + one_game_money, _first_game_money self) in
  let current_money := _start_money self + won_money in
  (current_money, one_game_money).

(** The locals of [single_game_simulation] that the loops assign, together
    with the object.  [color] is unbound until the first draw. *)
Record frame : Set := mkframe {
  f_self : t;
  f_color : option string;
  f_one_game_money : Z
}.

(** What a pass through the [for] loop ends with: the loop ran to its end,
    or its body executed [return 0]. *)
Inductive for_exit : Set :=
| Fallthrough (fr : frame)
| Return (v : Z) (self : t).

(** [for i in range(n): ...] of [single_game_simulation], lines 82-87. *)
Fixpoint for_loop (n : nat) (won_money : Z) (fr : frame) : M for_exit :=
  match n with
  | O => ret (Fallthrough fr)
  | S n' =>
      (color <- random_choice ;;
       let '(cm, ogm) :=
         one_bet (f_self fr) color won_money (f_one_game_money fr) in
       let self := set_current_money (f_self fr) cm in
       if current_money self <? 0
       then ret (Return 0 self)
       else for_loop n' won_money (mkframe self (Some color) ogm))%py
  end.

(** [while color != self.chosen_color: ...], lines 90-92.  The recursion is
    on the tape: every pass through the body draws one colour. *)
Fixpoint while_loop (won_money : Z) (self : t) (color : string)
    (one_game_money : Z) (g : rng) : res frame :=
  if neq color (chosen_color self)
  then
    match g with
    | [] => Starved
    | color' :: g' =>
        let '(cm, ogm) := one_bet self color' won_money one_game_money in
        while_loop won_money (set_current_money self cm) color' ogm g'
    end
  else Ok (mkframe self (Some color) one_game_money) g.

(** [single_game_simulation]: the value returned and the object as the call
    leaves it. *)
Definition single_game_simulation (self : t) (play_till_win : bool)
    : M (Z * t) :=
  let won_money := 0 in
  let self := set_current_money self (_start_money self) in
  let one_game_money := _first_game_money self in
  (ex <- for_loop (Z.to_nat (_n_games self)) won_money
           (mkframe self None one_game_money) ;;
   match ex with
   | Return v self => ret (v, self)
   | Fallthrough fr =>
       match f_color fr with
       | None => raise UnboundLocalError
       | Some color =>
           if neq color (chosen_color (f_self fr)) && play_till_win
           then
             (fr' <- while_loop won_money (f_self fr) color
                       (f_one_game_money fr) ;;
              ret (current_money (f_self fr'), f_self fr'))
           else ret (current_money (f_self fr), f_self fr)
       end
   end)%py.

(** The [for] loop of [game_simulation], lines 103-104: [won_money] is the
    list the results are appended to. *)
Fixpoint gamers_loop (n : nat) (self : t) (play_till_win : bool)
    (won_money : list Z) : M (list Z * t) :=
  match n with
  | O => ret (won_money, self)
  | S n' =>
      ('(v, self) <- single_game_simulation self play_till_win ;;
       gamers_loop n' self play_till_win (won_money ++ [v])%list)%py
  end.

(** [game_simulation]: [pd.Series(won_money) - self._start_money]. *)
Definition game_simulation (self : t) (n_gamers : Z) (play_till_win : bool)
    : M (list Z * t) :=
  ('(won_money, self) <-
     gamers_loop (Z.to_nat n_gamers) self play_till_win [] ;;
   ret (map (fun x => x - _start_money self) won_money, self))%py.

(** [loose_chance]: [won_money[won_money < 0].shape[0] / won_money.shape[0]]. *)
Definition loose_chance (self : t) (n_gamers : Z) (play_till_win : bool)
    : M (Q * t) :=
  ('(won_money, self) <- game_simulation self n_gamers play_till_win ;;
   q <- truediv (Z.of_nat (List.length (filter (fun x => x <? 0) won_money)))
                (Z.of_nat (List.length won_money)) ;;
   ret (q, self))%py.

End CasinoSimulator.

Import CasinoSimulator.


(** ** The pandas operations [full_simulation] uses

    A data frame is the list of its rows, in order, each with its index label:
    labels may repeat, and the order is what [sort_values] is about.  Floats
    are modelled by exact rationals in lowest terms, and [NaN] by [None]. *)

Module Pandas.

Section Sorting.
Context {A : Type} (leb : A -> A -> bool).

Fixpoint insert (x : A) (l : list A) : list A :=
  match l with
  | [] => [x]
  | y :: l' => if leb x y then x :: l else y :: insert x l'
  end.

(** A stable sort; the order pandas leaves ties in is not modelled. *)
Fixpoint sort (l : list A) : list A :=
  match l with
  | [] => []
  | x :: l' => insert x (sort l')
  end.
End Sorting.

(** [Series.quantile(q)], linear interpolation between the two closest
    ranks. *)
Definition quantile (xs : list Z) (q : Q) : option Q :=
  match sort Z.leb xs with
  | [] => None
  | x0 :: _ as sorted =>
      let h := (q * inject_Z (Z.of_nat (List.length sorted) - 1))%Q in
      let lo := Qfloor h in
      let a := nth (Z.to_nat lo) sorted x0 in
      let b := nth (Z.to_nat (lo + 1)) sorted a in
      Some (Qred (inject_Z a + (inject_Z b - inject_Z a) * (h - inject_Z lo)))
  end.

(** [Series.mean()]. *)
Definition mean (xs : list Z) : option Q :=
  match xs with
  | [] => None
  | _ =>
      Some (Qred (inject_Z (fold_right Z.add 0 xs)
                  / inject_Z (Z.of_nat (List.length xs))))
  end.

(** One row of [df.describe(percentiles=(0.1, 0.25, 0.5, 0.75, 0.85, 0.95,
    .99)).T].  The [std] column is left out: it is a square root, which the
    rationals do not have. *)
Record stats : Set := mkstats {
  count : Z;
  mean_ : option Q;
  min : option Q;
  p10 : option Q;
  p25 : option Q;
  p50 : option Q;
  p75 : option Q;
  p85 : option Q;
  p95 : option Q;
  p99 : option Q;
  max : option Q
}.

Definition describe (xs : list Z) : stats :=
  {| count := Z.of_nat (List.length xs);
     mean_ := mean xs;
     min := quantile xs 0;
     p10 := quantile xs (1 # 10);
     p25 := quantile xs (1 # 4);
     p50 := quantile xs (1 # 2);
     p75 := quantile xs (3 # 4);
     p85 := quantile xs (17 # 20);
     p95 := quantile xs (19 # 20);
     p99 := quantile xs (99 # 100);
     max := quantile xs 1 |}.

(** A row of [stat_df] after the merge: the statistics of one scenario and
    its [loose_chance] column. *)
Record row : Set := mkrow {
  index : string;
  stat : stats;
  loose_chance_col : Q
}.

(** [stat_df.merge(loose_df, left_index=True, right_index=True)]: the inner
    join on the index labels. *)
Definition merge (stat_df : list (string * stats))
    (loose_df : list (string * Q)) : list row :=
  flat_map
    (fun '(name, st) =>
       map (fun '(_, lc) => mkrow name st lc)
           (filter (fun '(name', _) => String.eqb name name') loose_df))
    stat_df.

(** The order of [sort_values]: ascending, [NaN] last. *)
Definition key_leb (a b : option Q) : bool :=
  match a, b with
  | Some x, Some y => Qle_bool x y
  | _, None => true
  | None, Some _ => false
  end.

(** [.sort_values("50%")]. *)
Definition sort_values_p50 (df : list row) : list row :=
  sort (fun r1 r2 => key_leb (p50 (stat r1)) (p50 (stat r2))) df.

End Pandas.

Import Pandas.

(** ** full_simulation *)

(** [f"n_games_{n_games}_first_money_{first_game_money}"]. *)
Definition scenario_name (n_games first_game_money : Z) : string :=
  ("n_games_" ++ str n_games ++ "_first_money_" ++ str first_game_money)%string.

(** The [for] loop of [full_simulation], lines 135-144, over the pairs that
    [itertools.product] yields. *)
Fixpoint scenarios_loop (opts : list (Z * Z)) (n_gamers : Z)
    (chosen_color : string) (start_money rate : Z) (play_till_win : bool)
    (df : list (string * list Z)) (loose_chance : list (string * Q))
    : M (list (string * list Z) * list (string * Q)) :=
  match opts with
  | [] => ret (df, loose_chance)
  | (n_games, first_game_money) :: opts' =>
      let name := scenario_name n_games first_game_money in
      match __init__ n_games chosen_color start_money rate first_game_money with
      | inl e => raise e
      | inr casino =>
          ('(result, casino) <- game_simulation casino n_gamers play_till_win ;;
           let df := (df ++ [(name, result)])%list in
           '(loosers_perc, casino) <-
             CasinoSimulator.loose_chance casino n_gamers true ;;
           scenarios_loop opts' n_gamers chosen_color start_money rate
             play_till_win df (loose_chance ++ [(name, loosers_perc)])%list)%py
      end
  end.

(** [full_simulation], up to the table it writes and prints: returns [df] (a
    row per scenario, before the transposition) and the final [stat_df].
    [describe] refuses a frame without columns. *)
Definition full_simulation (n_gamers : Z) (chosen_color : string)
    (n_games_opt first_game_money_opt : list Z) (start_money rate : Z)
    (play_till_win : bool) : M (list (string * list Z) * list row) :=
  ('(df, loose_chance) <-
     scenarios_loop (list_prod n_games_opt first_game_money_opt) n_gamers
       chosen_color start_money rate play_till_win [] [] ;;
   match df with
   | [] => raise ValueError
   | _ =>
       let stat_df := map (fun '(name, col) => (name, describe col)) df in
       ret (df, sort_values_p50 (merge stat_df loose_chance))
   end)%py.

(** [main]: the sweep of the fixed options, once for each value of
    [play_till_win], [True] first. *)
Definition main : M unit :=
  bind (full_simulation 1000 "black" [10; 30; 50] [20; 50; 100] 1000 2 true)
    (fun _ =>
       bind (full_simulation 1000 "black" [10; 30; 50] [20; 50; 100] 1000 2
               false)
         (fun _ => ret tt)).

(** ** Vocabulary of the statements

    The two loops of [single_game_simulation] share their body: draw a colour,
    call [one_bet] with [won_money = 0], assign [self.current_money] and
    [one_game_money].  [play] is the frame that body leaves, [plays] the frame
    after a list of draws, and [bet_after] the bet size in force after them. *)

Definition play (fr : frame) (c : string) : frame :=
  let '(cm, ogm) := one_bet (f_self fr) c 0 (f_one_game_money fr) in
  mkframe (set_current_money (f_self fr) cm) (Some c) ogm.

Definition plays (fr : frame) (cs : list string) : frame :=
  fold_left play cs fr.

(** The frame [single_game_simulation] enters its [for] loop with. *)
Definition entry (self : t) : frame :=
  mkframe (set_current_money self (_start_money self)) None
          (_first_game_money self).

Definition bet_after (self : t) (played : list string) : Z :=
  fold_left (fun bet c => snd (one_bet self c 0 bet)) played
            (_first_game_money self).

(** The configurations the spec calls valid. *)
Definition valid (self : t) : Prop :=
  0 <= _start_money self /\ 0 < _first_game_money self /\
  1 <= _rate self /\ 1 <= _n_games self.

(** [n] sessions run one after the other on the same object and random state:
    the values they return, the object and the random state they leave. *)
Inductive sessions (play_till_win : bool)
  : t -> rng -> list Z -> t -> rng -> Prop :=
| sessions_nil self g : sessions play_till_win self g [] self g
| sessions_cons self g v self1 g1 vs self2 g2 :
    single_game_simulation self play_till_win g = Ok (v, self1) g1 ->
    sessions play_till_win self1 g1 vs self2 g2 ->
    sessions play_till_win self g (v :: vs) self2 g2.


(** The fraction of the entries of a series that are below 0. *)
Definition fraction_below_0 (xs : list Z) : Q :=
  Qred (inject_Z (Z.of_nat (List.length (filter (fun x => x <? 0) xs)))
        / inject_Z (Z.of_nat (List.length xs))).


(** * Properties *)

(** ** The bet engine: [one_bet] *)

(** The two branches of [one_bet]. *)
Lemma one_bet_branches (self : t) (color : string) (w b : Z) :
  one_bet self color w b =
  if neq color (chosen_color self)
  then (_start_money self + (w - b), b * _rate self)
  else (_start_money self + (w + b), _first_game_money self).
Proof.
  unfold one_bet. destruct (neq color (chosen_color self)); reflexivity.
Qed.

(** C2, as the code has it: for every colour, [won_money], bet size and
    object, [one_bet] returns the pair (money after the bet, next bet size).
    On a loss ([color != chosen_color]) that is
    [(_start_money + (won_money - bet), bet * _rate)]; on a win it is
    [(_start_money + (won_money + bet), _first_game_money)].  The first
    component is the bankroll, not the net winnings. *)
Theorem one_bet_spec (self : t) (color : string) (won_money one_game_money : Z) :
  one_bet self color won_money one_game_money =
  if neq color (chosen_color self)
  then (_start_money self + (won_money - one_game_money),
        one_game_money * _rate self)
  else (_start_money self + (won_money + one_game_money),
        _first_game_money self).
Proof. apply one_bet_branches. Qed.

(** C2 as the spec words it fails: with rate 2 and first bet 20, a loss of a
    bet of 20 from net winnings 0 and a bankroll of 1000 returns 980 in the
    first component, not the net winnings -20. *)
Lemma one_bet_net_winnings_counterexample :
  let self := mk "black" 1000 4 1000 2 20 in
  1 <= _rate self /\ 0 < _first_game_money self /\
  neq "red" (chosen_color self) = true /\
  one_bet self "red" 0 20 = (980, 40) /\
  one_bet self "red" 0 20 <> (0 - 20, 20 * _rate self).
Proof.
  cbn. repeat split; try reflexivity; try lia. discriminate.
Qed.

(** [one_bet] reads the object's fixed attributes only. *)
Lemma one_bet_set_current_money (self : t) (v : Z) (color : string) (w b : Z) :
  one_bet (set_current_money self v) color w b = one_bet self color w b.
Proof. reflexivity. Qed.

(** ** One player: [single_game_simulation] *)

(** C1: on the draws red, red, red, black, with rate 2, colour black, 1000 to
    start with, a first bet of 20 and [n_games = 4], the code returns 1160,
    not 1020: after the three losses the bankroll it holds is 920 (not 860)
    with 160 as the next bet, because every [one_bet] call is given
    [won_money = 0]. *)
Theorem single_game_simulation_martingale_example (play_till_win : bool) :
  let self := mk "black" 1000 4 1000 2 20 in
  for_loop 3 0 (mkframe self None 20) ["red"; "red"; "red"; "black"]
    = Ok (Fallthrough
            (mkframe (set_current_money self 920) (Some "red") 160))
         ["black"] /\
  single_game_simulation self play_till_win ["red"; "red"; "red"; "black"]
    = Ok (1160, set_current_money self 1160) [].
Proof.
  destruct play_till_win; split; reflexivity.
Qed.

(** C3: the [while] loop has no ruin test.  With 100 to start with, a first
    bet of 20, rate 2 and one fixed round, the draws red, red, red, red, black
    take the bankroll to -60 on the fourth round (a bet of 160); the session
    then draws once more, bets 320 and returns 420. *)
Theorem while_loop_continues_below_zero :
  let self := mk "black" 100 1 100 2 20 in
  for_loop 1 0 (mkframe self None 20) ["red"; "red"; "red"; "red"; "black"]
    = Ok (Fallthrough (mkframe (set_current_money self 80) (Some "red") 40))
         ["red"; "red"; "red"; "black"] /\
  one_bet self "red" 0 160 = (-60, 320) /\
  while_loop 0 (set_current_money self 80) "red" 40 ["red"; "red"; "red"]
    = Starved /\
  single_game_simulation self true ["red"; "red"; "red"; "red"; "black"]
    = Ok (420, set_current_money self 420) [].
Proof.
  repeat split; reflexivity.
Qed.

(** C10: with [n_games = 0] the call raises [UnboundLocalError], whatever
    [play_till_win] is and whatever the random state: no colour is drawn and
    no value is returned. *)
Theorem single_game_simulation_zero_games (self : t) (play_till_win : bool)
    (g : rng) (H : _n_games self = 0) :
  single_game_simulation self play_till_win g = Raise UnboundLocalError.
Proof.
  unfold single_game_simulation. cbn [_n_games set_current_money].
  rewrite H. reflexivity.
Qed.

Lemma single_game_simulation_zero_games_witness :
  _n_games (mk "black" 1000 0 1000 2 20) = 0 /\
  single_game_simulation (mk "black" 1000 0 1000 2 20) false ["black"]
    = Raise UnboundLocalError.
Proof.
  split; [reflexivity|].
  apply (single_game_simulation_zero_games (mk "black" 1000 0 1000 2 20)).
  reflexivity.
Defined.

(** *** The loops, in terms of the draws they consume *)

Lemma plays_snoc (fr : frame) (cs : list string) (c : string) :
  plays fr (cs ++ [c]) = play (plays fr cs) c.
Proof. unfold plays. now rewrite fold_left_app. Qed.

Lemma plays_app (fr : frame) (cs cs' : list string) :
  plays fr (cs ++ cs') = plays (plays fr cs) cs'.
Proof. unfold plays. now rewrite fold_left_app. Qed.

Lemma play_unfold (fr : frame) (c : string) :
  play fr c =
  mkframe
    (set_current_money (f_self fr)
       (fst (one_bet (f_self fr) c 0 (f_one_game_money fr))))
    (Some c)
    (snd (one_bet (f_self fr) c 0 (f_one_game_money fr))).
Proof.
  unfold play. now destruct (one_bet (f_self fr) c 0 (f_one_game_money fr)).
Qed.

Lemma set_current_money_twice (self : t) (a b : Z) :
  set_current_money (set_current_money self a) b = set_current_money self b.
Proof. reflexivity. Qed.

Lemma plays_self (fr : frame) (cs : list string) :
  f_self (plays fr cs) =
  set_current_money (f_self fr) (current_money (f_self (plays fr cs))).
Proof.
  revert fr. induction cs as [|c cs IH]; intros fr.
  - now destruct fr as [[]].
  - change (plays fr (c :: cs)) with (plays (play fr c) cs).
    rewrite (IH (play fr c)) at 1. now rewrite play_unfold.
Qed.

Lemma plays_bet (self : t) (fr : frame) (cs : list string) (m : Z) :
  f_self fr = set_current_money self m ->
  f_one_game_money (plays fr cs) =
  fold_left (fun bet c => snd (one_bet self c 0 bet)) cs (f_one_game_money fr).
Proof.
  revert fr m. induction cs as [|c cs IH]; intros fr m Hfr; [reflexivity|].
  change (plays fr (c :: cs)) with (plays (play fr c) cs).
  rewrite (IH (play fr c) (fst (one_bet self c 0 (f_one_game_money fr)))).
  - rewrite play_unfold, Hfr. reflexivity.
  - rewrite play_unfold, Hfr. reflexivity.
Qed.

Lemma for_loop_S (n : nat) (fr : frame) (c : string) (g : rng) :
  for_loop (S n) 0 fr (c :: g) =
  if current_money (f_self (play fr c)) <? 0
  then Ok (Return 0 (f_self (play fr c))) g
  else for_loop n 0 (play fr c) g.
Proof.
  rewrite play_unfold. cbn [for_loop]. unfold bind, random_choice.
  destruct (one_bet (f_self fr) c 0 (f_one_game_money fr)) as [cm ogm].
  cbn [fst snd f_self].
  now destruct (current_money (set_current_money (f_self fr) cm) <? 0).
Qed.

Lemma while_loop_unfold (self : t) (col : string) (ogm : Z) (g : rng) :
  while_loop 0 self col ogm g =
  if neq col (chosen_color self)
  then match g with
       | [] => Starved
       | c :: g' =>
           let fr := play (mkframe self (Some col) ogm) c in
           while_loop 0 (f_self fr) c (f_one_game_money fr) g'
       end
  else Ok (mkframe self (Some col) ogm) g.
Proof.
  destruct g as [|c g]; [reflexivity|].
  rewrite play_unfold. cbn [while_loop f_self f_one_game_money].
  destruct (one_bet self c 0 ogm) as [cm o]. reflexivity.
Qed.

(** A [for] loop that comes back has consumed a prefix [cs] of the draws.  If
    it ran to its end it made [n] draws and none left the bankroll negative;
    if it returned, the value is 0 and the last draw left it negative. *)
Lemma for_loop_Ok (n : nat) (fr : frame) (g g' : rng) (ex : for_exit) :
  for_loop n 0 fr g = Ok ex g' ->
  exists cs, g = (cs ++ g')%list /\
    match ex with
    | Fallthrough fr' =>
        List.length cs = n /\ fr' = plays fr cs /\
        (n <> O -> 0 <= current_money (f_self fr'))
    | Return v self' =>
        v = 0 /\ cs <> [] /\
        self' = f_self (plays fr cs) /\ current_money self' < 0
    end.
Proof.
  revert fr g. induction n as [|n IH]; intros fr g H.
  - cbn in H. injection H as <- <-. exists []. cbn. intuition congruence.
  - destruct g as [|c g]; [discriminate|].
    rewrite for_loop_S in H.
    destruct (current_money (f_self (play fr c)) <? 0) eqn:Hneg.
    + injection H as <- <-. exists [c]. cbn.
      apply Z.ltb_lt in Hneg. repeat split; auto. discriminate.
    + apply Z.ltb_ge in Hneg.
      destruct (IH _ _ H) as (cs & -> & Hex). exists (c :: cs).
      split; [reflexivity|].
      destruct ex as [fr'|v self'].
      * destruct Hex as (Hlen & -> & Hpos). cbn [List.length].
        repeat split; auto. intros _.
        destruct n as [|n]; [|apply Hpos; discriminate].
        destruct cs; [exact Hneg|discriminate].
      * destruct Hex as (-> & Hne & -> & Hlt).
        repeat split; auto. discriminate.
Qed.

(** A [while] loop that comes back has consumed a prefix [cs] of the draws
    and stops on the chosen colour. *)
Lemma while_loop_Ok (g g' : rng) (self : t) (col : string) (ogm : Z)
    (fr' : frame) :
  while_loop 0 self col ogm g = Ok fr' g' ->
  exists cs, g = (cs ++ g')%list /\
    fr' = plays (mkframe self (Some col) ogm) cs /\
    exists c, f_color fr' = Some c /\ neq c (chosen_color self) = false.
Proof.
  revert self col ogm fr'. induction g as [|c g IH]; intros self col ogm fr' H;
    rewrite while_loop_unfold in H;
    destruct (neq col (chosen_color self)) eqn:Hcol; try discriminate.
  - injection H as <- <-. exists []. cbn. eauto.
  - cbv zeta in H. apply IH in H. destruct H as (cs & -> & -> & c' & Hc' & Hn).
    exists (c :: cs). split; [reflexivity|].
    split; [unfold plays; cbn [fold_left]; now rewrite !play_unfold|].
    exists c'. split; [exact Hc'|].
    rewrite play_unfold in Hn. exact Hn.
  - injection H as <- <-. exists []. cbn. eauto.
Qed.

Lemma single_game_simulation_unfold (self : t) (play_till_win : bool)
    (g : rng) :
  single_game_simulation self play_till_win g =
  match for_loop (Z.to_nat (_n_games self)) 0 (entry self) g with
  | Ok (Return v self') g1 => Ok (v, self') g1
  | Ok (Fallthrough fr) g1 =>
      match f_color fr with
      | None => Raise UnboundLocalError
      | Some color =>
          if neq color (chosen_color (f_self fr)) && play_till_win
          then
            match while_loop 0 (f_self fr) color (f_one_game_money fr) g1 with
            | Ok fr' g2 => Ok (current_money (f_self fr'), f_self fr') g2
            | Raise e => Raise e
            | Starved => Starved
            end
          else Ok (current_money (f_self fr), f_self fr) g1
      end
  | Raise e => Raise e
  | Starved => Starved
  end.
Proof.
  unfold single_game_simulation, bind, entry. cbn [_n_games set_current_money
    _first_game_money _start_money].
  destruct (for_loop _ _ _ g) as [[fr|v s] g1| |]; try reflexivity.
  destruct (f_color fr); [|reflexivity].
  destruct (neq _ _ && _); reflexivity.
Qed.

Lemma plays_chosen_color (self : t) (cs : list string) :
  chosen_color (f_self (plays (entry self) cs)) = chosen_color self.
Proof. now rewrite plays_self. Qed.

(** A session that comes back has consumed a non-empty prefix [cs] of the
    draws and leaves the object as it is after playing [cs].  Its value is 0
    with that object's [current_money] negative (the [return 0] of the [for]
    loop), or it is that [current_money], which either passed the test of the
    [for] loop or comes from a [while] loop that stopped on the chosen
    colour. *)
Lemma single_game_simulation_Ok (self self' : t) (play_till_win : bool)
    (g g' : rng) (v : Z) :
  single_game_simulation self play_till_win g = Ok (v, self') g' ->
  exists cs, g = (cs ++ g')%list /\ cs <> [] /\
    self' = f_self (plays (entry self) cs) /\
    ((v = 0 /\ current_money self' < 0) \/
     (v = current_money self' /\
      (0 <= current_money self' \/
       exists c, f_color (plays (entry self) cs) = Some c /\
                 neq c (chosen_color self) = false))).
Proof.
  rewrite single_game_simulation_unfold.
  destruct (for_loop _ _ _ g) as [[fr|v0 s] g1| |] eqn:Hfor; try discriminate.
  - apply for_loop_Ok in Hfor. destruct Hfor as (cs & -> & Hlen & -> & Hpos).
    destruct (f_color (plays (entry self) cs)) as [col|] eqn:Hcol;
      [|discriminate].
    assert (Hne : cs <> []) by (intros ->; discriminate).
    assert (Hn : Z.to_nat (_n_games self) <> O)
      by (rewrite <- Hlen; destruct cs; [congruence|discriminate]).
    destruct (neq col _ && play_till_win).
    + destruct (while_loop _ _ _ _ g1) as [fr' g2| |] eqn:Hwh; try discriminate.
      intros H. injection H as <- <- <-.
      apply while_loop_Ok in Hwh.
      destruct Hwh as (cs2 & -> & -> & c & Hc & Hwin).
      rewrite <- Hcol in *.
      replace {| f_self := f_self (plays (entry self) cs);
                 f_color := f_color (plays (entry self) cs);
                 f_one_game_money := f_one_game_money (plays (entry self) cs) |}
        with (plays (entry self) cs) in * by now destruct (plays (entry self) cs).
      rewrite <- plays_app in *. rewrite plays_chosen_color in Hwin.
      exists (cs ++ cs2)%list. split; [now rewrite app_assoc|].
      split; [now destruct cs|]. split; [reflexivity|].
      right. split; [reflexivity|]. right. eauto.
    + intros H. injection H as <- <- <-. exists cs. repeat split; auto.
  - intros H. injection H as <- <- <-.
    apply for_loop_Ok in Hfor. destruct Hfor as (cs & -> & -> & Hne & -> & Hlt).
    exists cs. repeat split; auto.
Qed.

(** *** Bet sizes and bankrolls along the draws *)

Lemma neq_false (a b : string) : neq a b = false <-> a = b.
Proof.
  unfold neq. rewrite negb_false_iff. apply String.eqb_eq.
Qed.

Lemma neq_true (a b : string) : neq a b = true <-> a <> b.
Proof.
  unfold neq. rewrite negb_true_iff. apply String.eqb_neq.
Qed.

Lemma entry_bet (self : t) (cs : list string) :
  f_one_game_money (plays (entry self) cs) = bet_after self cs.
Proof.
  unfold bet_after.
  now rewrite (plays_bet self (entry self) cs (_start_money self)).
Qed.

Lemma bet_after_snoc (self : t) (cs : list string) (c : string) :
  bet_after self (cs ++ [c]) = snd (one_bet self c 0 (bet_after self cs)).
Proof. unfold bet_after. now rewrite fold_left_app. Qed.

(** With a positive first bet and a rate of at least 1 every bet is
    positive. *)
Lemma bet_after_pos (self : t) (cs : list string) :
  0 < _first_game_money self -> 1 <= _rate self -> 0 < bet_after self cs.
Proof.
  intros Hf Hr. induction cs as [|c cs IH] using rev_ind; [exact Hf|].
  rewrite bet_after_snoc, one_bet_branches.
  destruct (neq c (chosen_color self)); cbn [snd]; nia.
Qed.

(** The bankroll after a last draw [c]: the starting money plus or minus the
    bet that was in force, nothing else. *)
Lemma plays_snoc_current_money (self : t) (cs : list string) (c : string) :
  current_money (f_self (plays (entry self) (cs ++ [c]))) =
  if neq c (chosen_color self)
  then _start_money self - bet_after self cs
  else _start_money self + bet_after self cs.
Proof.
  rewrite plays_snoc, play_unfold. cbn [f_self current_money set_current_money].
  rewrite entry_bet, plays_self, one_bet_set_current_money, one_bet_branches.
  cbn [entry f_self set_current_money chosen_color _start_money].
  destruct (neq c (chosen_color self)); cbn [fst]; lia.
Qed.

Lemma plays_snoc_color (fr : frame) (cs : list string) (c : string) :
  f_color (plays fr (cs ++ [c])) = Some c.
Proof. now rewrite plays_snoc, play_unfold. Qed.

(** C5: a session that ends on a winning draw [c], and not on the [return 0]
    of the ruin test, returns the starting money plus the bet size of that
    last round; what the earlier rounds won or lost is not in it.  [played]
    are the draws before the last one, and the random state left ([g]) tells
    that [c] was the last draw. *)
Theorem single_game_simulation_last_win (self self' : t)
    (play_till_win : bool) (played : list string) (c : string) (g : rng)
    (v : Z) :
  single_game_simulation self play_till_win (played ++ c :: g) = Ok (v, self') g ->
  c = chosen_color self ->
  0 <= current_money self' ->
  v = _start_money self + bet_after self played.
Proof.
  intros H Hc Hpos. apply single_game_simulation_Ok in H.
  destruct H as (cs & Hcs & _ & Hself & Hv).
  assert (cs = (played ++ [c])%list) as ->.
  { apply (app_inv_tail g). rewrite <- Hcs, <- app_assoc. reflexivity. }
  assert (Hcm : current_money self' = _start_money self + bet_after self played).
  { rewrite Hself, plays_snoc_current_money.
    apply neq_false in Hc. now rewrite Hc. }
  destruct Hv as [(_ & Hneg)|(-> & _)]; [lia|exact Hcm].
Qed.

Lemma single_game_simulation_last_win_witness :
  single_game_simulation (mk "black" 1000 4 1000 2 20) true
    (["red"; "red"; "red"] ++ "black" :: [])
    = Ok (1160, mk "black" 1160 4 1000 2 20) [] /\
  bet_after (mk "black" 1000 4 1000 2 20) ["red"; "red"; "red"] = 160 /\
  1160 = _start_money (mk "black" 1000 4 1000 2 20)
         + bet_after (mk "black" 1000 4 1000 2 20) ["red"; "red"; "red"].
Proof.
  split; [reflexivity|]. split; [reflexivity|].
  apply (single_game_simulation_last_win (mk "black" 1000 4 1000 2 20)
           (mk "black" 1160 4 1000 2 20) true ["red"; "red"; "red"] "black" []).
  - reflexivity.
  - reflexivity.
  - cbn. lia.
Defined.

(** *** Sessions come back *)

Lemma for_loop_not_Raise (n : nat) (fr : frame) (g : rng) (e : exn) :
  for_loop n 0 fr g <> Raise e.
Proof.
  revert fr g. induction n as [|n IH]; intros fr g; [discriminate|].
  destruct g as [|c g]; [discriminate|]. rewrite for_loop_S.
  destruct (_ <? 0); [discriminate|apply IH].
Qed.

Lemma for_loop_not_Starved (n : nat) (fr : frame) (g : rng) :
  (n <= List.length g)%nat -> for_loop n 0 fr g <> Starved.
Proof.
  revert fr g. induction n as [|n IH]; intros fr g Hlen; [discriminate|].
  destruct g as [|c g]; [cbn in Hlen; lia|]. rewrite for_loop_S.
  destruct (_ <? 0); [discriminate|]. apply IH. cbn in Hlen. lia.
Qed.

Lemma while_loop_not_Raise (g : rng) (self : t) (col : string) (ogm : Z)
    (e : exn) :
  while_loop 0 self col ogm g <> Raise e.
Proof.
  revert self col ogm. induction g as [|c g IH]; intros self col ogm;
    rewrite while_loop_unfold; destruct (neq col (chosen_color self));
    try discriminate.
  apply IH.
Qed.

(** The [while] loop comes back as soon as the chosen colour is drawn. *)
Lemma while_loop_returns (g : rng) (self : t) (col : string) (ogm : Z) :
  neq col (chosen_color self) = false \/ In (chosen_color self) g ->
  exists fr' g', while_loop 0 self col ogm g = Ok fr' g'.
Proof.
  revert self col ogm. induction g as [|c g IH]; intros self col ogm H;
    rewrite while_loop_unfold;
    destruct (neq col (chosen_color self)) eqn:Hcol; eauto.
  - destruct H as [H|[]]. discriminate.
  - cbv zeta. apply IH. rewrite play_unfold.
    cbn [f_self chosen_color set_current_money].
    destruct H as [H|[<-|H]]; [discriminate| |now right].
    left. now apply neq_false.
Qed.

(** C4: for a valid configuration (starting money >= 0, first bet > 0, rate
    >= 1, at least one game) and any draws, a session never raises; the value
    it returns is >= 0, and it is exactly 0 when the ruin test holds of the
    object it leaves ([self.current_money < 0]); and it does return once the
    draws cover the [n_games] rounds and, for [play_till_win], hold the chosen
    colour at the last of these rounds or later. *)
Theorem single_game_simulation_nonnegative (self : t) (play_till_win : bool)
    (g : rng) (Hvalid : valid self) :
  (forall e, single_game_simulation self play_till_win g <> Raise e) /\
  (forall v self' g',
     single_game_simulation self play_till_win g = Ok (v, self') g' ->
     0 <= v /\ (current_money self' < 0 -> v = 0)) /\
  ((Z.to_nat (_n_games self) <= List.length g)%nat ->
   (play_till_win = true ->
    In (chosen_color self) (skipn (Z.to_nat (_n_games self) - 1) g)) ->
   exists v self' g',
     single_game_simulation self play_till_win g = Ok (v, self') g').
Proof.
  destruct Hvalid as (Hstart & Hfirst & Hrate & Hgames).
  assert (Hraise : forall e, single_game_simulation self play_till_win g <> Raise e).
  { intros e. rewrite single_game_simulation_unfold.
    destruct (for_loop _ _ _ g) as [[fr|v0 s] g1| |] eqn:Hfor; try discriminate.
    - apply for_loop_Ok in Hfor. destruct Hfor as (cs & -> & Hlen & -> & _).
      destruct cs as [|c cs _] using rev_ind; [cbn in Hlen; lia|].
      rewrite plays_snoc_color.
      destruct (neq c _ && play_till_win); [|discriminate].
      destruct (while_loop _ _ _ _ g1) eqn:Hwh; try discriminate.
      now apply while_loop_not_Raise in Hwh.
    - now apply for_loop_not_Raise in Hfor. }
  split; [exact Hraise|]. split.
  - intros v self' g' H. apply single_game_simulation_Ok in H.
    destruct H as (cs & _ & Hne & Hself & [(-> & Hneg)|(-> & Hcm)]);
      [split; [lia|reflexivity]|].
    assert (0 <= current_money self'); [|split; lia].
    destruct Hcm as [Hcm|(c & Hc & Hwin)]; [exact Hcm|].
    destruct cs as [|c' cs _] using rev_ind; [congruence|].
    rewrite plays_snoc_color in Hc. injection Hc as ->.
    rewrite Hself, plays_snoc_current_money, Hwin.
    pose proof (bet_after_pos self cs Hfirst Hrate). lia.
  - intros Hlen Hwin. rewrite single_game_simulation_unfold.
    destruct (for_loop _ _ _ g) as [[fr|v0 s] g1|e|] eqn:Hfor.
    + apply for_loop_Ok in Hfor. destruct Hfor as (cs & -> & Hn & -> & _).
      destruct cs as [|c cs _] using rev_ind; [cbn in Hn; lia|].
      rewrite plays_snoc_color, plays_chosen_color.
      destruct (neq c (chosen_color self)) eqn:Hc, play_till_win;
        cbn [andb]; eauto.
      destruct (while_loop_returns g1 (f_self (plays (entry self) (cs ++ [c])))
                  c (f_one_game_money (plays (entry self) (cs ++ [c]))))
        as (fr' & g2 & ->); [|eauto].
      right. rewrite plays_chosen_color.
      specialize (Hwin eq_refl). rewrite <- Hn in Hwin.
      rewrite length_app in Hwin. cbn [List.length] in Hwin.
      replace (List.length cs + 1 - 1)%nat with (List.length cs + 0)%nat
        in Hwin by lia.
      rewrite <- app_assoc, skipn_app, Nat.add_0_r, skipn_all in Hwin.
      replace (List.length cs - List.length cs)%nat with O in Hwin by lia.
      cbn in Hwin. destruct Hwin as [Heq|Hwin]; [|exact Hwin].
      apply neq_true in Hc. congruence.
    + eauto.
    + now apply for_loop_not_Raise in Hfor.
    + now apply for_loop_not_Starved in Hfor.
Qed.

Lemma single_game_simulation_nonnegative_witness :
  valid (mk "black" 30 2 30 2 20) /\
  single_game_simulation (mk "black" 30 2 30 2 20) true ["red"; "red"; "black"]
    = Ok (0, mk "black" (-10) 2 30 2 20) ["black"] /\
  (forall v self' g',
     single_game_simulation (mk "black" 30 2 30 2 20) true
       ["red"; "red"; "black"] = Ok (v, self') g' ->
     0 <= v /\ (current_money self' < 0 -> v = 0)).
Proof.
  assert (Hvalid : valid (mk "black" 30 2 30 2 20))
    by (unfold valid; cbn; lia).
  split; [exact Hvalid|]. split; [reflexivity|].
  exact (proj1 (proj2 (single_game_simulation_nonnegative
                         (mk "black" 30 2 30 2 20) true
                         ["red"; "red"; "black"] Hvalid))).
Defined.

(** ** Many players: [game_simulation] and [loose_chance] *)

(** A session changes nothing of the object but [current_money]. *)
Lemma single_game_simulation_self (self self' : t) (play_till_win : bool)
    (g g' : rng) (v : Z) :
  single_game_simulation self play_till_win g = Ok (v, self') g' ->
  self' = set_current_money self (current_money self').
Proof.
  intros H. apply single_game_simulation_Ok in H.
  destruct H as (cs & _ & _ & Hself & _).
  rewrite Hself at 1. rewrite plays_self, <- Hself. reflexivity.
Qed.

Lemma sessions_start_money (play_till_win : bool) (self self' : t)
    (g g' : rng) (vs : list Z) :
  sessions play_till_win self g vs self' g' ->
  _start_money self' = _start_money self.
Proof.
  induction 1 as [|self g v self1 g1 vs self2 g2 H _ IH]; [reflexivity|].
  rewrite IH. apply single_game_simulation_self in H. now rewrite H.
Qed.

Lemma sessions_length_0 (play_till_win : bool) (self self' : t) (g g' : rng)
    (vs : list Z) :
  sessions play_till_win self g vs self' g' ->
  List.length vs = O -> vs = [] /\ self' = self /\ g' = g.
Proof. destruct 1; [auto|discriminate]. Qed.

(** The loop of [game_simulation] is the run of [n] sessions, appended to the
    list it starts with. *)
Lemma gamers_loop_sessions (n : nat) (play_till_win : bool) (self self' : t)
    (acc out : list Z) (g g' : rng) :
  gamers_loop n self play_till_win acc g = Ok (out, self') g' <->
  exists vs, sessions play_till_win self g vs self' g' /\
             List.length vs = n /\ out = acc ++ vs.
Proof.
  revert self acc g. induction n as [|n IH]; intros self acc g.
  - cbn. unfold ret. split.
    + intros H. injection H as <- <- <-. exists []. rewrite app_nil_r.
      repeat split. constructor.
    + intros (vs & Hs & Hlen & ->).
      destruct (sessions_length_0 _ _ _ _ _ _ Hs Hlen) as (-> & -> & ->).
      now rewrite app_nil_r.
  - cbn [gamers_loop]. unfold bind.
    destruct (single_game_simulation self play_till_win g)
      as [[v self1] g1|e|] eqn:Hone.
    + rewrite IH. split.
      * intros (vs & Hs & Hlen & ->). exists (v :: vs).
        rewrite <- app_assoc. cbn. repeat split; auto.
        econstructor; eassumption.
      * intros (vs & Hs & Hlen & ->).
        inversion Hs as [|? ? v' ? ? vs' ? ? Hone' Hs']; subst;
          [discriminate|].
        rewrite Hone in Hone'. injection Hone' as <- <- <-.
        exists vs'. rewrite <- app_assoc. cbn in *. repeat split; auto.
    + split; [discriminate|]. intros (vs & Hs & Hlen & _).
      inversion Hs; subst; [discriminate|congruence].
    + split; [discriminate|]. intros (vs & Hs & Hlen & _).
      inversion Hs; subst; [discriminate|congruence].
Qed.



(** C7, as the code has it: [__init__] validates nothing.  Whatever the five
    arguments are, it returns the object holding them; the number of players
    is not one of them, and a number of players [<= 0] gives an empty
    [game_simulation] and surfaces as [ZeroDivisionError] in
    [loose_chance]. *)
Theorem init_no_validation (n_games : Z) (color : string)
    (start_money rate first_game_money n_gamers : Z) (play_till_win : bool)
    (g : rng) (Hn : n_gamers <= 0) :
  exists self,
    __init__ n_games color start_money rate first_game_money = inr self /\
    self = mk color start_money n_games start_money rate first_game_money /\
    game_simulation self n_gamers play_till_win g = Ok ([], self) g /\
    loose_chance self n_gamers play_till_win g = Raise ZeroDivisionError.
Proof.
  eexists. split; [reflexivity|]. split; [reflexivity|].
  unfold loose_chance, game_simulation, bind.
  replace (Z.to_nat n_gamers) with O by lia. split; reflexivity.
Qed.

Lemma init_no_validation_witness :
  0 <= 0 /\
  exists self,
    __init__ 0 "black" 1000 0 0 = inr self /\
    self = mk "black" 1000 0 1000 0 0 /\
    game_simulation self 0 true ["red"] = Ok ([], self) ["red"] /\
    loose_chance self 0 true ["red"] = Raise ZeroDivisionError.
Proof.
  split; [lia|].
  apply (init_no_validation 0 "black" 1000 0 0 0 true ["red"]). lia.
Defined.

(** C7 as the spec words it fails: no round, a first bet of 0 and a rate of 0
    are accepted by [__init__], and with no player at all the error comes from
    the division in [loose_chance]. *)
Lemma init_validation_counterexample :
  ~ (forall n_games color start_money rate first_game_money,
       n_games <= 0 \/ first_game_money <= 0 \/ rate < 1 ->
       exists e,
         __init__ n_games color start_money rate first_game_money = inl e) /\
  loose_chance (mk "black" 1000 4 1000 2 20) 0 true []
    = Raise ZeroDivisionError.
Proof.
  split; [|reflexivity].
  intros H. destruct (H 0 "black" 1000 0 0) as (e & He); [lia|discriminate].
Qed.

(** ** The sweep: [full_simulation] *)


(** *** Sorting *)

Section Insertion.
Context {A : Type} (leb : A -> A -> bool).
Hypothesis leb_total : forall a b, leb a b = true \/ leb b a = true.
Hypothesis leb_trans :
  forall a b c, leb a b = true -> leb b c = true -> leb a c = true.




End Insertion.





(** *** The rows of the statistics table *)

Lemma game_simulation_length (self self' : t) (n_gamers : Z)
    (play_till_win : bool) (g g' : rng) (out : list Z) :
  game_simulation self n_gamers play_till_win g = Ok (out, self') g' ->
  List.length out = Z.to_nat n_gamers.
Proof.
  unfold game_simulation, bind, ret.
  destruct (gamers_loop _ self play_till_win [] g) as [[won s1] g1|e|] eqn:Hloop;
    try discriminate.
  intros H. injection H as <- <- <-.
  apply gamers_loop_sessions in Hloop. destruct Hloop as (vs & _ & Hlen & ->).
  now rewrite length_map.
Qed.

(** [loose_chance] gives a value for at least one player only. *)
Lemma loose_chance_Ok_players (self : t) (n_gamers : Z) (play_till_win : bool)
    (g g' : rng) (r : Q * t) :
  loose_chance self n_gamers play_till_win g = Ok r g' -> 1 <= n_gamers.
Proof.
  unfold loose_chance, bind.
  destruct (game_simulation self n_gamers play_till_win g)
    as [[out s1] g1|e|] eqn:Hsim; try discriminate.
  apply game_simulation_length in Hsim. rewrite Hsim. unfold truediv.
  destruct (Z.of_nat (Z.to_nat n_gamers) =? 0) eqn:Hz; [discriminate|].
  intros _. apply Z.eqb_neq in Hz. lia.
Qed.







(** *** The [loose_chance] column *)

Lemma loose_chance_Ok (self self' : t) (n_gamers : Z) (play_till_win : bool)
    (g g' : rng) (q : Q) :
  loose_chance self n_gamers play_till_win g = Ok (q, self') g' ->
  exists out,
    game_simulation self n_gamers play_till_win g = Ok (out, self') g' /\
    q = fraction_below_0 out.
Proof.
  unfold loose_chance, bind.
  destruct (game_simulation self n_gamers play_till_win g)
    as [[out s1] g1|e|]; try discriminate.
  unfold truediv. destruct (_ =? 0); [discriminate|].
  intros H. injection H as <- <- <-. eauto.
Qed.

Lemma scenarios_loop_incl (opts : list (Z * Z)) (n_gamers : Z)
    (color : string) (start_money rate : Z) (play_till_win : bool)
    (df df' : list (string * list Z)) (lc lc' : list (string * Q))
    (g g' : rng) :
  scenarios_loop opts n_gamers color start_money rate play_till_win df lc g
    = Ok (df', lc') g' ->
  incl df df'.
Proof.
  revert df lc g. induction opts as [|[n_games first] opts IH];
    intros df lc g H.
  - cbn in H. injection H as <- <- <-. apply incl_refl.
  - cbn [scenarios_loop __init__] in H. unfold bind in H.
    destruct (game_simulation _ n_gamers play_till_win g)
      as [[result casino] g1|e|]; try discriminate.
    destruct (loose_chance casino n_gamers true g1)
      as [[perc casino'] g2|e|]; try discriminate.
    apply IH in H. intros x Hx. apply H, in_or_app. now left.
Qed.






(** * Further properties of the code *)

(** ** A session, draw by draw *)

(** The [for] loop draws at most [n] colours, and exactly [n] when it runs to
    its end. *)
Lemma for_loop_draws (n : nat) (fr : frame) (g g' : rng) (ex : for_exit) :
  for_loop n 0 fr g = Ok ex g' ->
  exists k, List.length g = (k + List.length g')%nat /\
    match ex with
    | Fallthrough _ => k = n
    | Return _ _ => (1 <= k <= n)%nat
    end.
Proof.
  revert fr g. induction n as [|n IH]; intros fr g H.
  - cbn in H. injection H as <- <-. now exists O.
  - destruct g as [|c g]; [discriminate|]. rewrite for_loop_S in H.
    destruct (current_money (f_self (play fr c)) <? 0).
    + injection H as <- <-. exists 1%nat. cbn. split; lia.
    + apply IH in H. destruct H as (k & Hlen & Hk). exists (S k).
      cbn [List.length]. split; [lia|]. destruct ex; lia.
Qed.

Lemma plays_entry_self (self : t) (cs : list string) :
  f_self (plays (entry self) cs) =
  set_current_money self (current_money (f_self (plays (entry self) cs))).
Proof. now rewrite plays_self at 1. Qed.

(** The whole of a session that comes back, read off its draws: [played] are
    the draws before the last one [c].  The object is left with the starting
    money plus or minus the bet of the last round.  Either the [for] loop
    returned 0 on a negative bankroll, within the [n_games] rounds; or the
    value is the bankroll, after at least [n_games] draws, the last one being
    the chosen colour when [play_till_win] holds and the [n_games]-th one when
    it does not. *)
Lemma single_game_simulation_run (self self' : t) (play_till_win : bool)
    (g g' : rng) (v : Z) :
  single_game_simulation self play_till_win g = Ok (v, self') g' ->
  exists played c,
    g = played ++ c :: g' /\
    self' = set_current_money self (current_money self') /\
    current_money self' =
      (if neq c (chosen_color self)
       then _start_money self - bet_after self played
       else _start_money self + bet_after self played) /\
    ((v = 0 /\ current_money self' < 0 /\
      (List.length played < Z.to_nat (_n_games self))%nat) \/
     (v = current_money self' /\
      (Z.to_nat (_n_games self) <= S (List.length played))%nat /\
      (0 <= current_money self' \/ neq c (chosen_color self) = false) /\
      (if play_till_win then neq c (chosen_color self) = false
       else S (List.length played) = Z.to_nat (_n_games self)))).
Proof.
  intros H. rewrite single_game_simulation_unfold in H.
  destruct (for_loop _ _ _ g) as [[fr|v0 s] g1| |] eqn:Hfor; try discriminate.
  - apply for_loop_Ok in Hfor. destruct Hfor as (cs & -> & Hlen & -> & Hpos).
    destruct cs as [|c cs _] using rev_ind; [discriminate|].
    rewrite plays_snoc_color, plays_chosen_color in H.
    rewrite length_app in Hlen. cbn [List.length] in Hlen.
    destruct (neq c (chosen_color self)) eqn:Hc, play_till_win; cbn [andb] in H.
    + destruct (while_loop _ _ _ _ g1) as [fr' g2| |] eqn:Hwh; try discriminate.
      injection H as <- <- <-. apply while_loop_Ok in Hwh.
      destruct Hwh as (cs2 & -> & -> & c' & Hc' & Hwin).
      rewrite plays_chosen_color in Hwin.
      replace {| f_self := f_self (plays (entry self) (cs ++ [c]));
                 f_color := Some c;
                 f_one_game_money :=
                   f_one_game_money (plays (entry self) (cs ++ [c])) |}
        with (plays (entry self) (cs ++ [c])) in *
        by (rewrite plays_snoc, play_unfold; reflexivity).
      rewrite <- plays_app in *.
      destruct cs2 as [|c2 cs2 _] using rev_ind.
      { rewrite app_nil_r, plays_snoc_color in Hc'. congruence. }
      rewrite app_assoc, plays_snoc_color in Hc'. injection Hc' as ->.
      exists ((cs ++ [c]) ++ cs2), c'.
      rewrite (app_assoc (cs ++ [c]) cs2 [c']).
      split; [now rewrite <- !app_assoc|]. split; [apply plays_entry_self|].
      split; [now rewrite plays_snoc_current_money, Hwin|].
      right. rewrite !length_app. cbn [List.length].
      repeat split; auto; lia.
    + injection H as <- <- <-. exists cs, c.
      split; [now rewrite <- app_assoc|]. split; [apply plays_entry_self|].
      split; [now rewrite plays_snoc_current_money, Hc|].
      right. repeat split; try lia.
    + injection H as <- <- <-. exists cs, c.
      split; [now rewrite <- app_assoc|]. split; [apply plays_entry_self|].
      split; [now rewrite plays_snoc_current_money, Hc|].
      right. repeat split; auto; lia.
    + injection H as <- <- <-. exists cs, c.
      split; [now rewrite <- app_assoc|]. split; [apply plays_entry_self|].
      split; [now rewrite plays_snoc_current_money, Hc|].
      right. repeat split; auto; lia.
  - injection H as <- <- <-.
    pose proof (for_loop_draws _ _ _ _ _ Hfor) as (k & Hk & Hkn).
    apply for_loop_Ok in Hfor. destruct Hfor as (cs & -> & -> & Hne & -> & Hlt).
    destruct cs as [|c cs _] using rev_ind; [congruence|].
    rewrite !length_app in Hk. cbn [List.length] in Hk.
    exists cs, c.
    split; [now rewrite <- app_assoc|]. split; [apply plays_entry_self|].
    split; [now rewrite plays_snoc_current_money|].
    left. repeat split; auto; lia.
Qed.

(** ** Bet sizes *)

Lemma bet_after_snoc_cases (self : t) (cs : list string) (c : string) :
  bet_after self (cs ++ [c]) =
  if neq c (chosen_color self)
  then bet_after self cs * _rate self
  else _first_game_money self.
Proof.
  rewrite bet_after_snoc, one_bet_branches.
  now destruct (neq c (chosen_color self)).
Qed.

Lemma bet_after_app_losses (self : t) (cs losses : list string) :
  Forall (fun c => c <> chosen_color self) losses ->
  bet_after self (cs ++ losses) =
  bet_after self cs * _rate self ^ Z.of_nat (List.length losses).
Proof.
  induction losses as [|c losses IH] using rev_ind; intros Hl.
  - rewrite app_nil_r. cbn. lia.
  - apply Forall_app in Hl. destruct Hl as (Hl & Hc).
    inversion Hc as [|? ? Hc' _]; subst.
    rewrite app_assoc, bet_after_snoc_cases, (proj2 (neq_true _ _) Hc'), IH
      by exact Hl.
    rewrite length_app, Nat2Z.inj_add, Z.pow_add_r by lia. cbn. lia.
Qed.

(** With a positive first bet and a rate of at least 1 no bet is below the
    first bet. *)
Lemma bet_after_ge_first (self : t) (cs : list string) :
  0 < _first_game_money self -> 1 <= _rate self ->
  _first_game_money self <= bet_after self cs.
Proof.
  intros Hf Hr. induction cs as [|c cs IH] using rev_ind; [cbn; lia|].
  rewrite bet_after_snoc_cases. destruct (neq c (chosen_color self)); nia.
Qed.

(** X1: the bet in force after [k] losses in a row, from the start of a
    session or from a win, is [first_game_money * rate ^ k]. *)
Theorem bet_after_losing_streak (self : t) (played losses : list string)
    (Hlosses : Forall (fun c => c <> chosen_color self) losses) :
  bet_after self losses =
    _first_game_money self * _rate self ^ Z.of_nat (List.length losses) /\
  bet_after self (played ++ chosen_color self :: losses) =
    _first_game_money self * _rate self ^ Z.of_nat (List.length losses).
Proof.
  split.
  - now rewrite <- (app_nil_l losses), bet_after_app_losses.
  - replace (played ++ chosen_color self :: losses)
      with ((played ++ [chosen_color self]) ++ losses)
      by now rewrite <- app_assoc.
    rewrite bet_after_app_losses, bet_after_snoc_cases by exact Hlosses.
    now rewrite (proj2 (neq_false _ _) eq_refl).
Qed.

Lemma bet_after_losing_streak_witness :
  Forall (fun c => c <> chosen_color (mk "black" 1000 4 1000 2 20))
         ["red"; "red"; "red"] /\
  bet_after (mk "black" 1000 4 1000 2 20) ["red"; "red"; "red"] = 20 * 2 ^ 3 /\
  bet_after (mk "black" 1000 4 1000 2 20)
            (["red"; "red"] ++ "black" :: ["red"; "red"; "red"]) = 20 * 2 ^ 3.
Proof.
  assert (H : Forall (fun c => c <> chosen_color (mk "black" 1000 4 1000 2 20))
                     ["red"; "red"; "red"])
    by (repeat constructor; discriminate).
  split; [exact H|].
  exact (bet_after_losing_streak (mk "black" 1000 4 1000 2 20)
           ["red"; "red"] ["red"; "red"; "red"] H).
Defined.

(** ** Ruin *)

Lemma play_loss (self : t) (fr : frame) (c : string) (m : Z) :
  f_self fr = set_current_money self m ->
  c <> chosen_color self ->
  play fr c =
  mkframe (set_current_money self (_start_money self - f_one_game_money fr))
          (Some c) (f_one_game_money fr * _rate self).
Proof.
  intros Hfr Hc. rewrite play_unfold, Hfr, one_bet_set_current_money,
    one_bet_branches, (proj2 (neq_true _ _) Hc).
  cbn [fst snd]. reflexivity.
Qed.

(** A losing streak whose last bet exceeds the starting money ends the [for]
    loop with [return 0]. *)
Lemma for_loop_losing_streak (self : t) (losses : list string) (n : nat)
    (fr : frame) (m : Z) (g : rng) :
  f_self fr = set_current_money self m ->
  Forall (fun c => c <> chosen_color self) losses ->
  (1 <= List.length losses <= n)%nat ->
  _start_money self <
    f_one_game_money fr * _rate self ^ Z.of_nat (List.length losses - 1) ->
  exists self' g' k,
    for_loop n 0 fr (losses ++ g) = Ok (Return 0 self') g' /\
    current_money self' < 0 /\
    List.length (losses ++ g) = (k + List.length g')%nat /\
    (k <= List.length losses)%nat.
Proof.
  revert n fr m. induction losses as [|c losses IH]; intros n fr m Hfr Hl Hlen Hs.
  - cbn in Hlen. lia.
  - inversion Hl as [|? ? Hc Hl']; subst.
    destruct n as [|n]; [cbn in Hlen; lia|].
    cbn [app]. rewrite for_loop_S, (play_loss self fr c m Hfr Hc).
    cbn [f_self current_money set_current_money].
    destruct (_start_money self - f_one_game_money fr <? 0) eqn:Hneg.
    + apply Z.ltb_lt in Hneg. eexists. exists (losses ++ g), 1%nat.
      split; [reflexivity|]. cbn. repeat split; auto; lia.
    + apply Z.ltb_ge in Hneg. cbn [List.length] in Hlen, Hs.
      destruct losses as [|c' losses].
      { cbn in Hs. lia. }
      destruct (IH n
                  (mkframe
                     (set_current_money self
                        (_start_money self - f_one_game_money fr))
                     (Some c) (f_one_game_money fr * _rate self))
                  (_start_money self - f_one_game_money fr))
        as (self' & g' & k & Hrun & Hlt & Hk & Hkl).
      * reflexivity.
      * exact Hl'.
      * cbn [List.length] in *. lia.
      * cbn [f_one_game_money].
        remember (List.length (c' :: losses)) as k eqn:Hk.
        assert (1 <= k)%nat by (subst k; cbn; lia).
        replace (Z.of_nat (S k - 1)) with (Z.succ (Z.of_nat (k - 1))) in Hs
          by lia.
        rewrite Z.pow_succ_r in Hs by lia. lia.
      * exists self', g', (S k). split; [exact Hrun|]. split; [exact Hlt|].
        cbn [List.length app] in *. split; lia.
Qed.

(** X2: a session that starts with [k] losses in a row, [1 <= k <= n_games],
    with [first_game_money * rate ^ (k - 1)] above the starting money, is
    ruined within these [k] draws: it returns 0 and leaves a negative
    [current_money]. *)
Theorem single_game_simulation_losing_streak (self : t) (play_till_win : bool)
    (losses : list string) (g : rng)
    (Hlosses : Forall (fun c => c <> chosen_color self) losses)
    (Hlen : 1 <= Z.of_nat (List.length losses) <= _n_games self)
    (Hbet : _start_money self <
            _first_game_money self
            * _rate self ^ (Z.of_nat (List.length losses) - 1)) :
  exists self' g' k,
    single_game_simulation self play_till_win (losses ++ g)
      = Ok (0, self') g' /\
    current_money self' < 0 /\
    List.length (losses ++ g) = (k + List.length g')%nat /\
    (k <= List.length losses)%nat.
Proof.
  destruct (for_loop_losing_streak self losses (Z.to_nat (_n_games self))
              (entry self) (_start_money self) g)
    as (self' & g' & k & Hrun & Hlt & Hk); auto.
  - lia.
  - cbn [entry f_one_game_money].
    replace (Z.of_nat (List.length losses - 1))
      with (Z.of_nat (List.length losses) - 1) by lia.
    exact Hbet.
  - exists self', g', k. rewrite single_game_simulation_unfold, Hrun. auto.
Qed.

Lemma single_game_simulation_losing_streak_witness :
  exists self' g' k,
    single_game_simulation (mk "black" 100 5 100 2 20) true
      (["red"; "red"; "red"; "red"] ++ ["black"]) = Ok (0, self') g' /\
    current_money self' < 0 /\
    List.length (["red"; "red"; "red"; "red"] ++ ["black"])
      = (k + List.length g')%nat /\
    (k <= List.length ["red"; "red"; "red"; "red"])%nat.
Proof.
  apply (single_game_simulation_losing_streak (mk "black" 100 5 100 2 20) true
           ["red"; "red"; "red"; "red"] ["black"]).
  - repeat constructor; discriminate.
  - cbn. lia.
  - cbn. lia.
Defined.

(** ** How many colours a session draws, and what it ends on *)

(** X3: a session that comes back has drawn at least one colour; unless it
    left through the ruin test it has drawn at least [n_games] colours, and
    without [play_till_win] it never draws more than [n_games]. *)
Theorem single_game_simulation_draws (self self' : t) (play_till_win : bool)
    (g g' : rng) (v : Z)
    (Hrun : single_game_simulation self play_till_win g = Ok (v, self') g') :
  exists k,
    List.length g = (k + List.length g')%nat /\ (1 <= k)%nat /\
    (0 <= current_money self' -> (Z.to_nat (n_games self) <= k)%nat) /\
    (play_till_win = false -> (k <= Z.to_nat (n_games self))%nat).
Proof.
  apply single_game_simulation_run in Hrun.
  destruct Hrun as (played & c & -> & _ & _ & Hcases).
  exists (S (List.length played)). unfold n_games.
  rewrite length_app. cbn [List.length]. split; [lia|]. split; [lia|].
  destruct Hcases as [(_ & Hneg & Hlen)|(_ & Hlen & _ & Hptw)].
  - split; intros; lia.
  - split; [intros; lia|]. intros ->. lia.
Qed.

Lemma single_game_simulation_draws_witness :
  exists k,
    List.length ["red"; "red"; "black"; "red"]
      = (k + List.length ["red"])%nat /\ (1 <= k)%nat /\
    (0 <= current_money (mk "black" 1080 2 1000 2 20) ->
     (Z.to_nat (n_games (mk "black" 1000 2 1000 2 20)) <= k)%nat) /\
    (true = false ->
     (k <= Z.to_nat (n_games (mk "black" 1000 2 1000 2 20)))%nat).
Proof.
  apply (single_game_simulation_draws (mk "black" 1000 2 1000 2 20)
           (mk "black" 1080 2 1000 2 20) true
           ["red"; "red"; "black"; "red"] ["red"] 1080).
  reflexivity.
Defined.

(** X4: a session that ends on a losing draw [c] without the ruin test firing
    was run without [play_till_win], has drawn exactly [n_games] colours, and
    returns the starting money minus the bet of that last round. *)
Theorem single_game_simulation_last_loss (self self' : t)
    (play_till_win : bool) (played : list string) (c : string) (g : rng)
    (v : Z)
    (Hrun : single_game_simulation self play_till_win (played ++ c :: g)
            = Ok (v, self') g)
    (Hloss : c <> chosen_color self)
    (Hpos : 0 <= current_money self') :
  v = start_money self - bet_after self played /\
  play_till_win = false /\
  Z.of_nat (S (List.length played)) = Z.max 0 (n_games self).
Proof.
  apply single_game_simulation_run in Hrun.
  destruct Hrun as (played' & c' & Hg & _ & Hcm & Hcases).
  assert (Heq : played' ++ [c'] = played ++ [c]).
  { apply (app_inv_tail g). now rewrite <- !app_assoc. }
  apply app_inj_tail in Heq. destruct Heq as (-> & ->).
  apply neq_true in Hloss. rewrite Hloss in *. unfold start_money, n_games.
  destruct Hcases as [(_ & Hneg & _)|(-> & _ & _ & Hptw)]; [lia|].
  destruct play_till_win; [discriminate|]. repeat split; auto; lia.
Qed.

Lemma single_game_simulation_last_loss_witness :
  960 = start_money (mk "black" 1000 2 1000 2 20)
        - bet_after (mk "black" 1000 2 1000 2 20) ["red"] /\
  false = false /\
  Z.of_nat (S (List.length ["red"]))
    = Z.max 0 (n_games (mk "black" 1000 2 1000 2 20)).
Proof.
  apply (single_game_simulation_last_loss (mk "black" 1000 2 1000 2 20)
           (mk "black" 960 2 1000 2 20) false ["red"] "red" ["black"] 960).
  - reflexivity.
  - discriminate.
  - cbn. lia.
Defined.

(** A session never raises when there is at least one game to play. *)
Lemma single_game_simulation_not_Raise (self : t) (play_till_win : bool)
    (g : rng) (e : exn) :
  1 <= _n_games self -> single_game_simulation self play_till_win g <> Raise e.
Proof.
  intros Hn. rewrite single_game_simulation_unfold.
  destruct (for_loop _ _ _ g) as [[fr|v0 s] g1| |] eqn:Hfor; try discriminate.
  - apply for_loop_Ok in Hfor. destruct Hfor as (cs & -> & Hlen & -> & _).
    destruct cs as [|c cs _] using rev_ind; [cbn in Hlen; lia|].
    rewrite plays_snoc_color.
    destruct (neq c _ && play_till_win); [|discriminate].
    destruct (while_loop _ _ _ _ g1) eqn:Hwh; try discriminate.
    now apply while_loop_not_Raise in Hwh.
  - now apply for_loop_not_Raise in Hfor.
Qed.


(** X5: with [play_till_win], a positive first bet and a rate of at least 1, a
    session returns either 0, from the ruin test, or at least the starting
    money plus the first bet: whoever is not ruined ends on a win. *)
Theorem single_game_simulation_play_till_win (self self' : t) (g g' : rng)
    (v : Z)
    (Hfirst : 0 < first_game_money self) (Hrate : 1 <= rate self)
    (Hrun : single_game_simulation self true g = Ok (v, self') g') :
  (v = 0 /\ current_money self' < 0) \/
  start_money self + first_game_money self <= v.
Proof.
  unfold start_money, first_game_money, rate in *.
  apply single_game_simulation_run in Hrun.
  destruct Hrun as (played & c & _ & _ & Hcm & Hcases).
  destruct Hcases as [(-> & Hneg & _)|(-> & _ & _ & Hwin)]; [now left|].
  right. rewrite Hcm, Hwin.
  pose proof (bet_after_ge_first self played Hfirst Hrate). lia.
Qed.

Lemma single_game_simulation_play_till_win_witness :
  (1080 = 0 /\ current_money (mk "black" 1080 2 1000 2 20) < 0) \/
  start_money (mk "black" 1000 2 1000 2 20)
  + first_game_money (mk "black" 1000 2 1000 2 20) <= 1080.
Proof.
  apply (single_game_simulation_play_till_win (mk "black" 1000 2 1000 2 20)
           (mk "black" 1080 2 1000 2 20) ["red"; "red"; "black"; "red"]
           ["red"] 1080).
  - cbn. lia.
  - cbn. lia.
  - reflexivity.
Defined.

(** X6: when the chosen colour is never drawn, a session with
    [play_till_win] and at least one game never completes: on any draws it
    either is ruined in the [for] loop (returns 0) or is still asking for
    colours when they run out. *)
Theorem single_game_simulation_colour_never_drawn (self : t) (g : rng)
    (Hgames : 1 <= n_games self)
    (Habsent : ~ In (chosen_color self) g) :
  single_game_simulation self true g = Starved \/
  exists self' g',
    single_game_simulation self true g = Ok (0, self') g' /\
    current_money self' < 0.
Proof.
  destruct (single_game_simulation self true g) as [[v self'] g'|e|] eqn:Hrun.
  - right. pose proof Hrun as Hrun'. apply single_game_simulation_run in Hrun'.
    destruct Hrun' as (played & c & -> & _ & _ & Hcases).
    destruct Hcases as [(-> & Hneg & _)|(_ & _ & _ & Hwin)]; [eauto|].
    apply neq_false in Hwin. subst c. exfalso. apply Habsent.
    apply in_or_app. right. now left.
  - now apply single_game_simulation_not_Raise in Hrun.
  - now left.
Qed.

Lemma single_game_simulation_colour_never_drawn_witness :
  single_game_simulation (mk "green" 1000 2 1000 1 20) true
    ["red"; "black"; "red"; "black"] = Starved \/
  exists self' g',
    single_game_simulation (mk "green" 1000 2 1000 1 20) true
      ["red"; "black"; "red"; "black"] = Ok (0, self') g' /\
    current_money self' < 0.
Proof.
  apply (single_game_simulation_colour_never_drawn
           (mk "green" 1000 2 1000 1 20) ["red"; "black"; "red"; "black"]).
  - cbn. lia.
  - cbn. intros [H|[H|[H|[H|[]]]]]; discriminate.
Defined.

(** ** The population *)

(** What an earlier call left in [current_money] is overwritten before the
    first draw. *)
Lemma single_game_simulation_set_current_money (self : t) (m : Z)
    (play_till_win : bool) (g : rng) :
  single_game_simulation (set_current_money self m) play_till_win g =
  single_game_simulation self play_till_win g.
Proof. reflexivity. Qed.

Lemma set_current_money_current (self : t) :
  set_current_money self (current_money self) = self.
Proof. now destruct self. Qed.

Lemma sessions_self (play_till_win : bool) (self self' : t) (g g' : rng)
    (vs : list Z) :
  sessions play_till_win self g vs self' g' ->
  self' = set_current_money self (current_money self').
Proof.
  induction 1 as [self g|self g v self1 g1 vs self2 g2 H _ IH].
  - now rewrite set_current_money_current.
  - apply single_game_simulation_self in H. rewrite IH at 1. now rewrite H.
Qed.


Lemma game_simulation_Ok (self self' : t) (n_gamers : Z)
    (play_till_win : bool) (g g' : rng) (out : list Z) :
  game_simulation self n_gamers play_till_win g = Ok (out, self') g' ->
  exists finals,
    sessions play_till_win self g finals self' g' /\
    List.length finals = Z.to_nat n_gamers /\
    out = map (fun v => v - _start_money self) finals.
Proof.
  unfold game_simulation, bind, ret.
  destruct (gamers_loop _ self play_till_win [] g) as [[won s1] g1|e|] eqn:Hloop;
    try discriminate.
  intros H. injection H as <- <- <-.
  apply gamers_loop_sessions in Hloop. destruct Hloop as (vs & Hs & Hlen & ->).
  exists vs. rewrite (sessions_start_money _ _ _ _ _ _ Hs). auto.
Qed.






Lemma fraction_below_0_bounds (xs : list Z) :
  xs <> [] -> (0 <= fraction_below_0 xs <= 1)%Q.
Proof.
  intros Hxs. unfold fraction_below_0. rewrite Qred_correct.
  set (a := Z.of_nat (List.length (filter (fun x => x <? 0) xs))).
  set (b := Z.of_nat (List.length xs)).
  assert (Ha : 0 <= a <= b).
  { subst a b. pose proof (filter_length_le (fun x => x <? 0) xs). lia. }
  assert (Hb : 0 < b) by (subst b; destruct xs; [congruence|cbn; lia]).
  assert (Hb' : (0 < inject_Z b)%Q) by (rewrite (Zlt_Qlt 0 b) in Hb; exact Hb).
  split.
  - apply Qle_shift_div_l; [exact Hb'|]. rewrite Qmult_0_l.
    change (inject_Z 0 <= inject_Z a)%Q. rewrite <- Zle_Qle. lia.
  - apply Qle_shift_div_r; [exact Hb'|]. rewrite Qmult_1_l.
    rewrite <- Zle_Qle. lia.
Qed.

(** X9: whenever [loose_chance] returns, its value is between 0 and 1. *)
Theorem loose_chance_bounds (self self' : t) (n_gamers : Z)
    (play_till_win : bool) (g g' : rng) (q : Q)
    (Hrun : loose_chance self n_gamers play_till_win g = Ok (q, self') g') :
  (0 <= q <= 1)%Q.
Proof.
  pose proof (loose_chance_Ok_players _ _ _ _ _ _ Hrun) as Hn.
  apply loose_chance_Ok in Hrun. destruct Hrun as (out & Hsim & ->).
  apply fraction_below_0_bounds. apply game_simulation_length in Hsim.
  destruct out; [cbn in Hsim; lia|discriminate].
Qed.

Lemma loose_chance_bounds_witness : (0 <= 1 # 2 <= 1)%Q.
Proof.
  apply (loose_chance_bounds (mk "black" 30 2 30 2 20)
           (mk "black" 50 2 30 2 20) 2 false
           ["red"; "red"; "black"; "black"] []).
  reflexivity.
Defined.

(** X10: [game_simulation] leaves the colour and what the read-only properties
    [n_games], [start_money], [rate] and [first_game_money] return as they
    were: the sessions assign [current_money] only. *)
Theorem game_simulation_keeps_configuration (self self' : t) (n_gamers : Z)
    (play_till_win : bool) (g g' : rng) (out : list Z)
    (Hrun : game_simulation self n_gamers play_till_win g = Ok (out, self') g') :
  chosen_color self' = chosen_color self /\
  n_games self' = n_games self /\
  start_money self' = start_money self /\
  rate self' = rate self /\
  first_game_money self' = first_game_money self.
Proof.
  apply game_simulation_Ok in Hrun. destruct Hrun as (finals & Hs & _).
  apply sessions_self in Hs. rewrite Hs. repeat split.
Qed.

Lemma game_simulation_keeps_configuration_witness :
  chosen_color (mk "black" 10 2 30 2 20) = chosen_color (mk "black" 30 2 30 2 20) /\
  n_games (mk "black" 10 2 30 2 20) = n_games (mk "black" 30 2 30 2 20) /\
  start_money (mk "black" 10 2 30 2 20) = start_money (mk "black" 30 2 30 2 20) /\
  rate (mk "black" 10 2 30 2 20) = rate (mk "black" 30 2 30 2 20) /\
  first_game_money (mk "black" 10 2 30 2 20)
    = first_game_money (mk "black" 30 2 30 2 20).
Proof.
  apply (game_simulation_keeps_configuration (mk "black" 30 2 30 2 20)
           (mk "black" 10 2 30 2 20) 2 false
           ["red"; "red"; "black"; "red"] [] [-30; -20]).
  reflexivity.
Defined.

(** X11: for at least one player, what [current_money] holds when
    [game_simulation] or [loose_chance] is called has no effect on the result:
    every session starts again from [start_money]. *)
Theorem game_simulation_ignores_current_money (self : t) (m n_gamers : Z)
    (play_till_win : bool) (g : rng) (Hn : 1 <= n_gamers) :
  game_simulation (set_current_money self m) n_gamers play_till_win g
    = game_simulation self n_gamers play_till_win g /\
  loose_chance (set_current_money self m) n_gamers play_till_win g
    = loose_chance self n_gamers play_till_win g.
Proof.
  assert (H : game_simulation (set_current_money self m) n_gamers
                play_till_win g
              = game_simulation self n_gamers play_till_win g).
  { unfold game_simulation, bind.
    destruct (Z.to_nat n_gamers) as [|k] eqn:Hk; [lia|].
    cbn [gamers_loop]. unfold bind.
    rewrite single_game_simulation_set_current_money. reflexivity. }
  split; [exact H|]. unfold loose_chance, bind. now rewrite H.
Qed.

Lemma game_simulation_ignores_current_money_witness :
  game_simulation (set_current_money (mk "black" 30 2 30 2 20) (-7)) 2 false
    ["red"; "red"; "black"; "red"]
    = game_simulation (mk "black" 30 2 30 2 20) 2 false
        ["red"; "red"; "black"; "red"] /\
  loose_chance (set_current_money (mk "black" 30 2 30 2 20) (-7)) 2 false
    ["red"; "red"; "black"; "red"]
    = loose_chance (mk "black" 30 2 30 2 20) 2 false
        ["red"; "red"; "black"; "red"].
Proof.
  apply (game_simulation_ignores_current_money (mk "black" 30 2 30 2 20) (-7) 2
           false ["red"; "red"; "black"; "red"]).
  lia.
Defined.

Lemma single_game_simulation_no_game (self : t) (play_till_win : bool)
    (g : rng) :
  _n_games self <= 0 ->
  single_game_simulation self play_till_win g = Raise UnboundLocalError.
Proof.
  intros Hn. rewrite single_game_simulation_unfold.
  replace (Z.to_nat (_n_games self)) with O by lia. reflexivity.
Qed.

(** X12: with [n_games <= 0] (zero or negative) and at least one player,
    [game_simulation] and [loose_chance] raise [UnboundLocalError], without
    drawing a colour. *)
Theorem game_simulation_no_game (self : t) (n_gamers : Z)
    (play_till_win : bool) (g : rng)
    (Hgames : n_games self <= 0) (Hn : 1 <= n_gamers) :
  game_simulation self n_gamers play_till_win g = Raise UnboundLocalError /\
  loose_chance self n_gamers play_till_win g = Raise UnboundLocalError.
Proof.
  assert (H : game_simulation self n_gamers play_till_win g
              = Raise UnboundLocalError).
  { unfold game_simulation, bind.
    destruct (Z.to_nat n_gamers) as [|k] eqn:Hk; [lia|].
    cbn [gamers_loop]. unfold bind.
    now rewrite single_game_simulation_no_game. }
  split; [exact H|]. unfold loose_chance, bind. now rewrite H.
Qed.

Lemma game_simulation_no_game_witness :
  game_simulation (mk "black" 1000 (-3) 1000 2 20) 5 true ["red"; "black"]
    = Raise UnboundLocalError /\
  loose_chance (mk "black" 1000 (-3) 1000 2 20) 5 true ["red"; "black"]
    = Raise UnboundLocalError.
Proof.
  apply (game_simulation_no_game (mk "black" 1000 (-3) 1000 2 20) 5 true
           ["red"; "black"]).
  - cbn. lia.
  - lia.
Defined.

(** ** The sweep and [main] *)

(** What the loop of the sweep appends: a series of [n_gamers] outcomes and a
    [loose_chance] entry per scenario, under the scenario's name, in the order
    of the options. *)
Lemma scenarios_loop_shape (opts : list (Z * Z)) (n_gamers : Z)
    (color : string) (start rate_ : Z) (play_till_win : bool)
    (df df' : list (string * list Z)) (lc lc' : list (string * Q))
    (g g' : rng) :
  scenarios_loop opts n_gamers color start rate_ play_till_win df lc g
    = Ok (df', lc') g' ->
  exists new new_lc,
    df' = df ++ new /\ lc' = lc ++ new_lc /\
    map fst new = map (fun p => scenario_name (fst p) (snd p)) opts /\
    map fst new_lc = map (fun p => scenario_name (fst p) (snd p)) opts /\
    Forall (fun row => List.length (snd row) = Z.to_nat n_gamers) new.
Proof.
  revert df lc g. induction opts as [|[ng first] opts IH]; intros df lc g H.
  - cbn in H. injection H as <- <- <-. exists [], [].
    rewrite !app_nil_r. repeat split; constructor.
  - cbn [scenarios_loop __init__] in H. unfold bind in H.
    destruct (game_simulation _ n_gamers play_till_win g)
      as [[result casino] g1|e|] eqn:Hsim; try discriminate.
    destruct (loose_chance casino n_gamers true g1)
      as [[perc casino'] g2|e|] eqn:Hloose; try discriminate.
    apply IH in H. destruct H as (new & new_lc & -> & -> & Hn & Hl & Hlen).
    exists ((scenario_name ng first, result) :: new),
           ((scenario_name ng first, perc) :: new_lc).
    rewrite <- !app_assoc. cbn [map fst snd app]. rewrite Hn, Hl.
    repeat split. constructor; [|exact Hlen].
    cbn [snd]. now apply game_simulation_length in Hsim.
Qed.





Lemma loose_chance_no_player (self : t) (n_gamers : Z) (play_till_win : bool)
    (g : rng) :
  n_gamers <= 0 ->
  game_simulation self n_gamers play_till_win g = Ok ([], self) g /\
  loose_chance self n_gamers play_till_win g = Raise ZeroDivisionError.
Proof.
  intros Hn. unfold loose_chance, game_simulation, bind.
  replace (Z.to_nat n_gamers) with O by lia. split; reflexivity.
Qed.

(** X14: with [n_gamers <= 0] and at least one scenario, [full_simulation]
    raises [ZeroDivisionError] in the first scenario, without drawing a
    colour. *)
Theorem full_simulation_no_player (n_gamers : Z) (color : string)
    (n_games_opt first_game_money_opt : list Z) (start rate_ : Z)
    (play_till_win : bool) (g : rng)
    (Hn : n_gamers <= 0)
    (Hgames : n_games_opt <> []) (Hfirst : first_game_money_opt <> []) :
  full_simulation n_gamers color n_games_opt first_game_money_opt start rate_
    play_till_win g = Raise ZeroDivisionError.
Proof.
  destruct n_games_opt as [|ng ngs]; [congruence|].
  destruct first_game_money_opt as [|f fs]; [congruence|].
  unfold full_simulation, bind. cbn [list_prod map app].
  cbn [scenarios_loop __init__]. unfold bind.
  destruct (loose_chance_no_player (mk color start ng start rate_ f) n_gamers
              play_till_win g Hn) as (-> & _).
  destruct (loose_chance_no_player (mk color start ng start rate_ f) n_gamers
              true g Hn) as (_ & ->).
  reflexivity.
Qed.

Lemma full_simulation_no_player_witness :
  full_simulation 0 "black" [10; 30] [20] 1000 2 false ["red"; "black"]
    = Raise ZeroDivisionError.
Proof.
  apply (full_simulation_no_player 0 "black" [10; 30] [20] 1000 2 false
           ["red"; "black"]).
  - lia.
  - discriminate.
  - discriminate.
Defined.

Lemma gamers_loop_not_Raise (k : nat) (self : t) (play_till_win : bool)
    (acc : list Z) (g : rng) (e : exn) :
  1 <= _n_games self -> gamers_loop k self play_till_win acc g <> Raise e.
Proof.
  revert self acc g. induction k as [|k IH]; intros self acc g Hn;
    [discriminate|].
  cbn [gamers_loop]. unfold bind.
  destruct (single_game_simulation self play_till_win g)
    as [[v self1] g1|e1|] eqn:Hone; [|now apply
      single_game_simulation_not_Raise in Hone|discriminate].
  apply IH. apply single_game_simulation_self in Hone. now rewrite Hone.
Qed.

Lemma game_simulation_not_Raise (self : t) (n_gamers : Z)
    (play_till_win : bool) (g : rng) (e : exn) :
  1 <= _n_games self -> game_simulation self n_gamers play_till_win g <> Raise e.
Proof.
  intros Hn. unfold game_simulation, bind.
  destruct (gamers_loop _ self play_till_win [] g) as [[won s1] g1|e1|] eqn:Hloop;
    [discriminate| |discriminate].
  now apply gamers_loop_not_Raise in Hloop.
Qed.

Lemma loose_chance_not_Raise (self : t) (n_gamers : Z) (play_till_win : bool)
    (g : rng) (e : exn) :
  1 <= _n_games self -> 1 <= n_gamers ->
  loose_chance self n_gamers play_till_win g <> Raise e.
Proof.
  intros Hn Hg. unfold loose_chance, bind.
  destruct (game_simulation self n_gamers play_till_win g)
    as [[out s1] g1|e1|] eqn:Hsim; [| |discriminate].
  - apply game_simulation_length in Hsim. rewrite Hsim. unfold truediv.
    destruct (Z.of_nat (Z.to_nat n_gamers) =? 0) eqn:Hz; [|discriminate].
    apply Z.eqb_eq in Hz. lia.
  - now apply game_simulation_not_Raise in Hsim.
Qed.

Lemma scenarios_loop_not_Raise (opts : list (Z * Z)) (n_gamers : Z)
    (color : string) (start rate_ : Z) (play_till_win : bool)
    (df : list (string * list Z)) (lc : list (string * Q)) (g : rng)
    (e : exn) :
  1 <= n_gamers -> Forall (fun p => 1 <= fst p) opts ->
  scenarios_loop opts n_gamers color start rate_ play_till_win df lc g
    <> Raise e.
Proof.
  intros Hg Hopts. revert df lc g.
  induction Hopts as [|[ng first] opts Hng _ IH]; intros df lc g;
    [discriminate|].
  cbn [scenarios_loop __init__]. unfold bind. cbn [fst] in Hng.
  destruct (game_simulation _ n_gamers play_till_win g)
    as [[result casino] g1|e1|] eqn:Hsim;
    [|now apply game_simulation_not_Raise in Hsim|discriminate].
  assert (Hcasino : 1 <= _n_games casino).
  { apply game_simulation_Ok in Hsim. destruct Hsim as (finals & Hs & _).
    apply sessions_self in Hs. now rewrite Hs. }
  destruct (loose_chance casino n_gamers true g1)
    as [[perc casino'] g2|e1|] eqn:Hloose;
    [apply IH|now apply loose_chance_not_Raise in Hloose|discriminate].
Qed.

(** A sweep with at least one player, at least one scenario and at least one
    game in every scenario raises nothing. *)
Lemma full_simulation_not_Raise (n_gamers : Z) (color : string)
    (n_games_opt first_game_money_opt : list Z) (start rate_ : Z)
    (play_till_win : bool) (g : rng) (e : exn) :
  1 <= n_gamers -> Forall (fun n => 1 <= n) n_games_opt ->
  n_games_opt <> [] -> first_game_money_opt <> [] ->
  full_simulation n_gamers color n_games_opt first_game_money_opt start rate_
    play_till_win g <> Raise e.
Proof.
  intros Hg Hopts Hne1 Hne2. unfold full_simulation, bind.
  destruct (scenarios_loop _ n_gamers color start rate_ play_till_win [] [] g)
    as [[df0 lc] g1|e1|] eqn:Hloop; [| |discriminate].
  - destruct df0; [|discriminate]. exfalso.
    apply scenarios_loop_shape in Hloop.
    destruct Hloop as (new & new_lc & Hdf & _ & Hn & _).
    cbn [app] in Hdf. subst new.
    destruct n_games_opt as [|ng ngs]; [congruence|].
    destruct first_game_money_opt as [|f fs]; [congruence|]. discriminate.
  - apply scenarios_loop_not_Raise in Hloop; [contradiction|exact Hg|].
    apply Forall_forall. intros [ng f] Hin. apply in_prod_iff in Hin.
    rewrite Forall_forall in Hopts. exact (Hopts _ (proj1 Hin)).
Qed.

(** X15: with at least one player, non-empty lists of options and at least
    one game in every option, [full_simulation] raises no exception of the
    simulation ([UnboundLocalError], [ZeroDivisionError]) nor the
    [ValueError] of [describe], whatever the draws. *)
Theorem full_simulation_raises_nothing (n_gamers : Z) (color : string)
    (n_games_opt first_game_money_opt : list Z) (start rate_ : Z)
    (play_till_win : bool) (g : rng) (e : exn)
    (Hn : 1 <= n_gamers) (Hgames : Forall (fun n => 1 <= n) n_games_opt)
    (Hne1 : n_games_opt <> []) (Hne2 : first_game_money_opt <> []) :
  full_simulation n_gamers color n_games_opt first_game_money_opt start rate_
    play_till_win g <> Raise e.
Proof.
  unfold full_simulation, bind.
  destruct (scenarios_loop _ n_gamers color start rate_ play_till_win [] [] g)
    as [[df0 lc] g1|e1|] eqn:Hloop; [| |discriminate].
  - destruct df0; [|discriminate]. exfalso.
    apply scenarios_loop_shape in Hloop.
    destruct Hloop as (new & new_lc & Hdf & _ & Hnames & _).
    cbn [app] in Hdf. subst new.
    destruct n_games_opt as [|ng ngs]; [congruence|].
    destruct first_game_money_opt as [|f fs]; [congruence|]. discriminate.
  - apply scenarios_loop_not_Raise in Hloop; [contradiction|exact Hn|].
    apply Forall_forall. intros [ng f] Hin. apply in_prod_iff in Hin.
    rewrite Forall_forall in Hgames. exact (Hgames _ (proj1 Hin)).
Qed.

Lemma full_simulation_raises_nothing_witness :
  full_simulation 1 "black" [1] [20; 50] 1000 2 false
    ["black"; "black"; "red"; "black"] <> Raise UnboundLocalError.
Proof.
  apply (full_simulation_raises_nothing 1 "black" [1] [20; 50] 1000 2 false
           ["black"; "black"; "red"; "black"] UnboundLocalError).
  - lia.
  - repeat constructor. lia.
  - discriminate.
  - discriminate.
Defined.

(** X16: [main] raises none of these exceptions, whatever the draws: its
    options have 1000 players and 10, 30 or 50 games. *)
Theorem main_raises_nothing (g : rng) (e : exn) : main g <> Raise e.
Proof.
  assert (Hsweep : forall ptw g0 e0,
            full_simulation 1000 "black" [10; 30; 50] [20; 50; 100] 1000 2
              ptw g0 <> Raise e0).
  { intros ptw g0 e0. apply full_simulation_not_Raise;
      [lia|repeat constructor; lia|discriminate|discriminate]. }
  unfold main, bind.
  destruct (full_simulation _ _ _ _ _ _ true g) as [r1 g1|e1|] eqn:H1;
    [|now apply Hsweep in H1|discriminate].
  destruct (full_simulation _ _ _ _ _ _ false g1) as [r2 g2|e2|] eqn:H2;
    [discriminate|now apply Hsweep in H2|discriminate].
Qed.
